(** * The openssh_loee launcher: a shallow embedding and its properties

    The package [openssh_loee] (file [packaging/openssh_loee/__init__.py])
    is a launcher: it computes the path of a bundled [ssh] binary from the
    location of its own module, checks that the path is a regular file and
    replaces the running process by that binary with [os.execvp].

    The development has four layers:
    - [Str]: the methods of Python's [str] that the program reaches;
    - [Posixpath]: [os.path.dirname] and [os.path.join] of CPython's
      [posixpath] (the program execs a binary named [ssh] with [os.execvp],
      so the POSIX flavour of [os.path] is the one modelled);
    - [Runtime]: the process the launcher runs in (module globals,
      [sys.argv], [sys.stdout] and [sys.stderr], the environment, what the
      kernel answers to [stat], [write] and [execve]) and a small monad for
      code that may return, raise or be replaced by another program image;
    - [Launcher]: the three functions of the source file. *)

From Stdlib Require Import String Ascii List ZArith Bool Lia.
Import ListNotations.

Local Open Scope string_scope.
Local Open Scope list_scope.

(* ================================================================= *)
(** ** Python strings *)

Module Str.

(** [s.rfind(c)]: the index of the last occurrence of [c], or [-1]. *)
Fixpoint rfind (c : ascii) (s : string) : Z :=
  match s with
  | EmptyString => (-1)%Z
  | String a s' =>
      let r := rfind c s' in
      if (0 <=? r)%Z then (r + 1)%Z
      else if Ascii.eqb a c then 0%Z else (-1)%Z
  end.

(** The first [n] characters of [s] (all of [s] when it is shorter). *)
Fixpoint take (n : nat) (s : string) : string :=
  match n, s with
  | O, _ => EmptyString
  | S _, EmptyString => EmptyString
  | S n', String a s' => String a (take n' s')
  end.

(** [s[:i]]: a negative bound counts from the end of the string. *)
Definition slice_to (i : Z) (s : string) : string :=
  if (i <? 0)%Z
  then take (Z.to_nat (Z.of_nat (String.length s) + i)) s
  else take (Z.to_nat i) s.

(** [s.rstrip(c)] for a single character [c]. *)
Fixpoint rstrip (c : ascii) (s : string) : string :=
  match s with
  | EmptyString => EmptyString
  | String a s' =>
      match rstrip c s' with
      | EmptyString => if Ascii.eqb a c then EmptyString else String a EmptyString
      | r => String a r
      end
  end.

(** [c * n]. *)
Fixpoint replicate (n : nat) (c : ascii) : string :=
  match n with
  | O => EmptyString
  | S n' => String c (replicate n' c)
  end.

(** [s.startswith(pre)]. *)
Definition startswith (pre s : string) : bool := String.prefix pre s.

(** [s.endswith(suf)]: some tail of [s] is [suf]. *)
Fixpoint endswith (suf s : string) : bool :=
  String.eqb s suf
  || match s with
     | EmptyString => false
     | String _ s' => endswith suf s'
     end.

(** [s.split(c)] for a single character [c]; empty fields are kept. *)
Fixpoint split (c : ascii) (s : string) : list string :=
  match s with
  | EmptyString => [EmptyString]
  | String a s' =>
      let r := split c s' in
      if Ascii.eqb a c then EmptyString :: r
      else match r with
           | [] => [String a EmptyString]
           | h :: t => String a h :: t
           end
  end.

(** Python's truth value of a string. *)
Definition truthy (s : string) : bool := negb (String.eqb s EmptyString).

(** [needle in s]. *)
Fixpoint contains (needle s : string) : bool :=
  String.prefix needle s
  || match s with
     | EmptyString => false
     | String _ s' => contains needle s'
     end.

(** [s.count(c)] for a single character. *)
Fixpoint count (c : ascii) (s : string) : nat :=
  match s with
  | EmptyString => O
  | String a s' => (if Ascii.eqb a c then 1 else 0) + count c s'
  end.

End Str.

(* ================================================================= *)
(** ** [os.path] on POSIX *)

Module Posixpath.

Definition sep_char : ascii := "/"%char.
Definition sep : string := "/".

(** [posixpath.dirname]:
<<
    i = p.rfind(sep) + 1
    head = p[:i]
    if head and head != sep*len(head):
        head = head.rstrip(sep)
    return head
>> *)
Definition dirname (p : string) : string :=
  let i := (Str.rfind sep_char p + 1)%Z in
  let head := Str.slice_to i p in
  if Str.truthy head
     && negb (String.eqb head (Str.replicate (String.length head) sep_char))
  then Str.rstrip sep_char head
  else head.

(** [posixpath.join(a, b)], one step of the loop over the later
    arguments:
<<
    if b.startswith(sep):               path = b
    elif not path or path.endswith(sep): path += b
    else:                                path += sep + b
>> *)
Definition join (path b : string) : string :=
  if Str.startswith sep b then b
  else if negb (Str.truthy path) || Str.endswith sep path then path ++ b
  else path ++ sep ++ b.

(** [posixpath.isabs]. *)
Definition isabs (p : string) : bool := Str.startswith sep p.

End Posixpath.


(* ================================================================= *)
(** ** The process the launcher runs in *)

Module Runtime.

(** The subclasses of [OSError] that [os.execvp] tells apart, and the
    exceptions the program can meet. [SystemExit] is what [sys.exit]
    raises; [UnboundLocalError] is what [os.execvp] would hit after a
    search over an empty list of directories. *)
Inductive os_error : Type :=
| FileNotFoundError
| NotADirectoryError
| PermissionError
| OtherOSError (errno : Z).

Inductive exn : Type :=
| SystemExit (code : Z)
| OSError (e : os_error)
| UnboundLocalError.

Definition environ := list (string * string).

(** What a program started by [execve] receives. *)
Record image : Type := Image {
  img_path : string;
  img_argv : list string;
  img_environ : environ
}.

Inductive stream : Type := Stdout | Stderr.

Definition stream_eqb (f g : stream) : bool :=
  match f, g with
  | Stdout, Stdout | Stderr, Stderr => true
  | _, _ => false
  end.

(** What the process does to the outside, in order of occurrence.
    [EvWrite f text]: the file object of stream [f] accepted [text] (a
    [str]; the bytes are the stream's encoding of it). [EvWriteError f text
    e]: writing [text] to [f] raised [OSError] [e]; which part of the text
    reached the stream before is not recorded. *)
Inductive event : Type :=
| EvStat (path : string)
| EvWrite (f : stream) (text : string)
| EvWriteError (f : stream) (text : string) (e : os_error)
| EvExecv (path : string) (args : list string).

(** The state of the running process. [p_stdout] and [p_stderr] are the
    values of [sys.stdout] and [sys.stderr]: a file object on a stream, or
    [None] when the process was started with that descriptor closed.
    [p_isreg], [p_write] and [p_execve] are the kernel as this process sees
    it: whether [stat] on a path succeeds and finds a regular file, whether
    writing a text to a stream goes through ([None]) or fails with an
    error, and whether [execve] of a path replaces the image ([None]) or
    fails with an error. *)
Record process : Type := Process {
  p_file : string;                 (* the module global __file__ *)
  p_argv : list string;            (* sys.argv *)
  p_environ : environ;             (* os.environ *)
  p_cwd : string;                  (* the working directory *)
  p_stdout : option stream;        (* sys.stdout *)
  p_stderr : option stream;        (* sys.stderr *)
  p_isreg : string -> bool;
  p_write : stream -> string -> option os_error;
  p_execve : string -> list string -> environ -> option os_error;
  p_trace : list event
}.

Definition log (e : event) (w : process) : process :=
  {| p_file := p_file w; p_argv := p_argv w; p_environ := p_environ w;
     p_cwd := p_cwd w; p_stdout := p_stdout w; p_stderr := p_stderr w;
     p_isreg := p_isreg w; p_write := p_write w; p_execve := p_execve w;
     p_trace := p_trace w ++ [e] |}.

Definition with_cwd (d : string) (w : process) : process :=
  {| p_file := p_file w; p_argv := p_argv w; p_environ := p_environ w;
     p_cwd := d; p_stdout := p_stdout w; p_stderr := p_stderr w;
     p_isreg := p_isreg w; p_write := p_write w; p_execve := p_execve w;
     p_trace := p_trace w |}.

Definition with_argv (a : list string) (w : process) : process :=
  {| p_file := p_file w; p_argv := a; p_environ := p_environ w;
     p_cwd := p_cwd w; p_stdout := p_stdout w; p_stderr := p_stderr w;
     p_isreg := p_isreg w; p_write := p_write w; p_execve := p_execve w;
     p_trace := p_trace w |}.

Definition with_stderr (f : option stream) (w : process) : process :=
  {| p_file := p_file w; p_argv := p_argv w; p_environ := p_environ w;
     p_cwd := p_cwd w; p_stdout := p_stdout w; p_stderr := f;
     p_isreg := p_isreg w; p_write := p_write w; p_execve := p_execve w;
     p_trace := p_trace w |}.



(** How a call ends: it returns a value, raises an exception, or the
    process image has been replaced and nothing of the caller is left. *)
Inductive result (A : Type) : Type :=
| Return (a : A)
| Raise (e : exn)
| Replaced (i : image).
Arguments Return {A} a.
Arguments Raise {A} e.
Arguments Replaced {A} i.

Definition M (A : Type) : Type := process -> result A * process.

Definition ret {A} (a : A) : M A := fun w => (Return a, w).

Definition bind {A B} (m : M A) (k : A -> M B) : M B :=
  fun w =>
    match m w with
    | (Return a, w') => k a w'
    | (Raise e, w') => (Raise e, w')
    | (Replaced i, w') => (Replaced i, w')
    end.

Definition raise {A} (e : exn) : M A := fun w => (Raise e, w).

(** Reading the module global [__file__], [sys.argv] and [sys.stderr]. *)
Definition module_file : M string := fun w => (Return (p_file w), w).
Definition sys_argv : M (list string) := fun w => (Return (p_argv w), w).
Definition sys_stderr : M (option stream) := fun w => (Return (p_stderr w), w).

(** [os.path.isfile(path)]: one [stat]; never raises. *)
Definition os_path_isfile (path : string) : M bool :=
  fun w => (Return (p_isreg w path), log (EvStat path) w).

(** [print(text, file=file)], as the builtin does it:
<<
      if file is None:
          file = sys.stdout
          if file is None:
              return
      file.write(text)
      file.write("\n")
>>
    The two calls of [write] are taken together: the text and the line
    end are accepted by the file object, or an [OSError] of the write
    comes out of [print]. *)
Definition print (text : string) (file : option stream) : M unit :=
  fun w =>
    match (match file with Some f => Some f | None => p_stdout w end) with
    | None => (Return tt, w)
    | Some f =>
        let line := (text ++ String "010"%char EmptyString)%string in
        match p_write w f line with
        | None => (Return tt, log (EvWrite f line) w)
        | Some e => (Raise (OSError e), log (EvWriteError f line e) w)
        end
    end.

(** [sys.exit(code)]. *)
Definition sys_exit {A} (code : Z) : M A := raise (SystemExit code).

(** [os.execv(path, args)]: the environment is inherited. *)
Definition os_execv (path : string) (args : list string) : M unit :=
  fun w =>
    let w' := log (EvExecv path args) w in
    match p_execve w path args (p_environ w) with
    | None => (Replaced (Image path args (p_environ w)), w')
    | Some e => (Raise (OSError e), w')
    end.

Fixpoint environ_get (k : string) (env : environ) : option string :=
  match env with
  | [] => None
  | (k', v) :: env' => if String.eqb k k' then Some v else environ_get k env'
  end.

(** [os.get_exec_path]: [PATH] split at [:], [os.defpath] without it. *)
Definition defpath : string := "/bin:/usr/bin".
Definition get_exec_path (env : environ) : list string :=
  Str.split ":"%char
    (match environ_get "PATH" env with Some p => p | None => defpath end).

(** The search loop of [os._execvpe]:
<<
    for dir in path_list:
        fullname = path.join(dir, file)
        try:
            exec_func(fullname, *argrest)
        except (FileNotFoundError, NotADirectoryError) as e:
            last_exc = e
        except OSError as e:
            last_exc = e
            if saved_exc is None:
                saved_exc = e
    if saved_exc is not None:
        raise saved_exc
    raise last_exc
>> *)
Fixpoint execvp_search (dirs : list string) (file : string) (args : list string)
         (saved_exc last_exc : option os_error) : M unit :=
  match dirs with
  | [] =>
      match saved_exc, last_exc with
      | Some e, _ => raise (OSError e)
      | None, Some e => raise (OSError e)
      | None, None => raise UnboundLocalError
      end
  | dir :: dirs' =>
      fun w =>
        match os_execv (Posixpath.join dir file) args w with
        | (Raise (OSError FileNotFoundError), w') =>
            execvp_search dirs' file args saved_exc (Some FileNotFoundError) w'
        | (Raise (OSError NotADirectoryError), w') =>
            execvp_search dirs' file args saved_exc (Some NotADirectoryError) w'
        | (Raise (OSError e), w') =>
            execvp_search dirs' file args
              (match saved_exc with None => Some e | Some _ => saved_exc end)
              (Some e) w'
        | (Return _, w') => execvp_search dirs' file args saved_exc last_exc w'
        | other => other
        end
  end.

(** [os.execvp(file, args)]: a [file] with a directory part is executed
    as it is, any other is searched along [PATH]:
<<
    if path.dirname(file):
        exec_func(file, *argrest)
        return
    ...
>> *)
Definition os_execvp (file : string) (args : list string) : M unit :=
  if Str.truthy (Posixpath.dirname file)
  then os_execv file args
  else fun w => execvp_search (get_exec_path (p_environ w)) file args None None w.

(** What each standard stream received. *)
Fixpoint written (f : stream) (t : list event) : string :=
  match t with
  | [] => EmptyString
  | EvWrite Stdout s :: t' =>
      match f with Stdout => (s ++ written f t')%string | Stderr => written f t' end
  | EvWrite Stderr s :: t' =>
      match f with Stderr => (s ++ written f t')%string | Stdout => written f t' end
  | _ :: t' => written f t'
  end.

(** The [execve] calls among the events. *)
Fixpoint exec_attempts (t : list event) : list (string * list string) :=
  match t with
  | [] => []
  | EvExecv p a :: t' => (p, a) :: exec_attempts t'
  | _ :: t' => exec_attempts t'
  end.


End Runtime.

Declare Scope launcher_scope.
Notation "x <- m ;; k" := (Runtime.bind m (fun x => k))
  (at level 61, m at next level, right associativity) : launcher_scope.
Notation "m ;; k" := (Runtime.bind m (fun _ => k))
  (at level 61, right associativity) : launcher_scope.
Local Open Scope launcher_scope.

(* ================================================================= *)
(** ** The source file *)

Module Launcher.
Import Runtime.

(** [def _bin_dir(): return os.path.join(os.path.dirname(__file__), "bin")] *)
Definition _bin_dir : M string :=
  file <- module_file ;;
  ret (Posixpath.join (Posixpath.dirname file) "bin").

(** [def ssh_path(): return os.path.join(_bin_dir(), "ssh")] *)
Definition ssh_path : M string :=
  d <- _bin_dir ;;
  ret (Posixpath.join d "ssh").

(** The text of [f"Error: ssh binary not found at {binary}"]. *)
Definition not_found_message (binary : string) : string :=
  ("Error: ssh binary not found at " ++ binary)%string.

(** [main]:
<<
    binary = ssh_path()
    if not os.path.isfile(binary):
        print(f"Error: ssh binary not found at {binary}", file=sys.stderr)
        sys.exit(1)
    os.execvp(binary, [binary] + sys.argv[1:])
>> *)
Definition main : M unit :=
  binary <- ssh_path ;;
  isfile <- os_path_isfile binary ;;
  (if negb isfile
   then err <- sys_stderr ;;
        print (not_found_message binary) err ;;
        sys_exit 1%Z
   else ret tt) ;;
  argv <- sys_argv ;;
  os_execvp binary ([binary] ++ skipn 1 argv).

End Launcher.

(* ================================================================= *)
(** ** Vocabulary of the properties *)

(** What a path string names: whether it starts at the root, and the
    names it goes through. Repeated and trailing separators name nothing.
    This is the reading under which [P/bin/ssh] is "the entry [ssh] of the
    entry [bin] of the directory [P]", whatever the spelling of [P]. *)
Module PathSpec.

Record path : Type := Path {
  absolute : bool;
  names : list string
}.

Fixpoint components_from (cur : string) (s : string) : list string :=
  match s with
  | EmptyString => if Str.truthy cur then [cur] else []
  | String a s' =>
      if Ascii.eqb a Posixpath.sep_char
      then (if Str.truthy cur then cur :: components_from EmptyString s'
            else components_from EmptyString s')
      else components_from (cur ++ String a EmptyString)%string s'
  end.

Definition denote (s : string) : path :=
  Path (Posixpath.isabs s) (components_from EmptyString s).

Definition descend (p : path) (rel : list string) : path :=
  Path (absolute p) (names p ++ rel).

(** The binary path as the specification words it: the installed
    package location, then [bin], then [ssh]. *)
Definition spec_resolveBinaryPath (P : string) : path :=
  descend (denote P) ["bin"; "ssh"].

End PathSpec.

Module Props.
Import Runtime.

Definition newline : string := String "010"%char EmptyString.

(** The installed package location of a process, and the value that
    [ssh_path] returns in it (lemma [ssh_path_returns]). *)
Definition package_location (w : process) : string :=
  Posixpath.dirname (p_file w).

Definition binary_of (w : process) : string :=
  Posixpath.join (Posixpath.join (package_location w) "bin") "ssh".

(** The separator that [join] puts after a directory: none after the
    empty string or after a separator. *)
Definition glue (P : string) : string :=
  if negb (Str.truthy P) || Str.endswith Posixpath.sep P
  then EmptyString else Posixpath.sep.

(** The caller's arguments, [sys.argv[1:]]. *)
Definition caller_args (w : process) : list string := skipn 1 (p_argv w).

(** The line that [main] prints when the binary is missing. *)
Definition diagnostic (w : process) : string :=
  (Launcher.not_found_message (binary_of w) ++ newline)%string.

(** The file that a [print(..., file=sys.stderr)] of the process writes
    to: [sys.stderr], [sys.stdout] when that is [None], no file when both
    are. *)
Definition diagnostic_target (w : process) : option stream :=
  match p_stderr w with
  | Some f => Some f
  | None => p_stdout w
  end.

(** The number of line ends in a text. *)
Definition line_ends (text : string) : nat := Str.count "010"%char text.

End Props.

(** Concrete installations, for the scenarios of the specification. *)
Module Scenario.
Import Runtime.

(** A file system as the table of its regular files. A regular file is
    a program the kernel can start, a file without execute permission
    ([EACCES]), or a file with execute permission that is no program
    ([ENOEXEC], errno 8). *)
Inductive regular : Type := Program | NotExecutable | NotAProgram.

Definition files := list (string * regular).

Fixpoint find_file (p : string) (t : files) : option regular :=
  match t with
  | [] => None
  | (q, x) :: t' => if String.eqb p q then Some x else find_file p t'
  end.

Definition isreg_in (t : files) (p : string) : bool :=
  match find_file p t with Some _ => true | None => false end.

Definition execve_in (t : files) (p : string) (_ : list string) (_ : environ)
  : option os_error :=
  match find_file p t with
  | Some Program => None
  | Some NotExecutable => Some PermissionError
  | Some NotAProgram => Some (OtherOSError 8)
  | None => Some FileNotFoundError
  end.

Definition user_environ : environ :=
  [("PATH", "/usr/local/bin:/usr/bin:/bin"); ("HOME", "/home/user")].

Definition installed_at (file : string) (t : files) (argv : list string) : process :=
  {| p_file := file; p_argv := argv; p_environ := user_environ;
     p_cwd := "/home/user"; p_stdout := Some Stdout; p_stderr := Some Stderr;
     p_isreg := isreg_in t; p_write := fun _ _ => None;
     p_execve := execve_in t; p_trace := [] |}.

Definition ssh_args : list string := ["user@host"; "-p"; "2222"].

(** Package at [/opt/tool], binary present and executable. *)
Definition present : process :=
  installed_at "/opt/tool/__init__.py" [("/opt/tool/bin/ssh", Program)]
               ("/usr/local/bin/ssh-loee" :: ssh_args).

(** Package at [/opt/tool], no binary. *)
Definition absent : process :=
  installed_at "/opt/tool/__init__.py" [] ("/usr/local/bin/ssh-loee" :: ssh_args).

(** Package at [/opt/tool], the binary a regular file without execute
    permission. *)
Definition not_executable : process :=
  installed_at "/opt/tool/__init__.py" [("/opt/tool/bin/ssh", NotExecutable)]
               ("/usr/local/bin/ssh-loee" :: ssh_args).


(** Arguments with blanks, shell metacharacters and an empty string. *)
Definition odd_args : list string :=
  ["-o"; "ProxyCommand=nc %h %p; echo $HOME | cat > /dev/null"; "";
   "two words"; "a'b`c*"].

Definition present_odd : process :=
  installed_at "/opt/tool/__init__.py" [("/opt/tool/bin/ssh", Program)]
               ("ssh-loee" :: odd_args).

(** No binary, and the process started with its error stream closed
    ([2>&-]): [sys.stderr] is [None]. *)
Definition absent_stderr_closed : process := with_stderr None absent.




(** The module loaded from a bare file name in the working directory, with
    the binary below it, in an interpreter whose [sys.argv] is empty. *)
Definition bare : process :=
  installed_at "__init__.py" [("bin/ssh", Program)] [].

(** A package directory whose name contains a line end, no binary. *)
Definition absent_two_lines : process :=
  installed_at ("/opt/to" ++ Props.newline ++ "ol/__init__.py")%string []
               ["ssh-loee"].

End Scenario.

(* ================================================================= *)
(** ** Facts about strings and paths *)

Module StrFacts.

Lemma append_assoc (a b c : string) : ((a ++ b) ++ c = a ++ (b ++ c))%string.
Proof. induction a as [|x a IH]; simpl; [reflexivity | now rewrite IH]. Qed.

Lemma append_empty_r (a : string) : (a ++ "")%string = a.
Proof. induction a as [|x a IH]; simpl; [reflexivity | now rewrite IH]. Qed.

Lemma append_nonempty_r (a b : string) : b <> EmptyString -> (a ++ b)%string <> EmptyString.
Proof. destruct a; simpl; [tauto | discriminate]. Qed.

Lemma length_append (a b : string) :
  String.length (a ++ b) = String.length a + String.length b.
Proof. induction a as [|x a IH]; simpl; [reflexivity | now rewrite IH]. Qed.

Lemma truthy_true (s : string) : Str.truthy s = true <-> s <> EmptyString.
Proof.
  unfold Str.truthy. rewrite negb_true_iff. apply String.eqb_neq.
Qed.

Lemma truthy_false (s : string) : Str.truthy s = false <-> s = EmptyString.
Proof.
  unfold Str.truthy. rewrite negb_false_iff. apply String.eqb_eq.
Qed.

Lemma prefix_append (n y : string) : String.prefix n (n ++ y) = true.
Proof.
  induction n as [|a n IH]; simpl.
  - now destruct y.
  - destruct (ascii_dec a a); [exact IH | congruence].
Qed.

Lemma contains_prefix (n s : string) :
  String.prefix n s = true -> Str.contains n s = true.
Proof. intros H. destruct s; cbn [Str.contains]; rewrite H; reflexivity. Qed.

(** [needle in (x + needle + y)]. *)
Lemma contains_append (n x y : string) : Str.contains n (x ++ n ++ y) = true.
Proof.
  induction x as [|a x IH].
  - change (Str.contains n (n ++ y) = true). apply contains_prefix, prefix_append.
  - simpl. rewrite IH. apply orb_true_r.
Qed.

Lemma count_append (c : ascii) (a b : string) :
  Str.count c (a ++ b) = Str.count c a + Str.count c b.
Proof. induction a as [|x a IH]; simpl; [reflexivity | rewrite IH; lia]. Qed.

(** *** [endswith] and [rstrip] at the separator *)

Lemma endswith_sep_cons (a : ascii) (s : string) :
  s <> EmptyString ->
  Str.endswith Posixpath.sep (String a s) = Str.endswith Posixpath.sep s.
Proof.
  intros Hs. destruct s as [|b s]; [congruence|].
  change (Str.endswith Posixpath.sep (String a (String b s)))
    with (String.eqb (String a (String b s)) Posixpath.sep
          || Str.endswith Posixpath.sep (String b s)).
  unfold Posixpath.sep at 1. simpl String.eqb.
  destruct (Ascii.eqb a "/"); reflexivity.
Qed.

Lemma endswith_sep_append (x y : string) :
  y <> EmptyString ->
  Str.endswith Posixpath.sep (x ++ y) = Str.endswith Posixpath.sep y.
Proof.
  intros Hy. induction x as [|a x IH]; [reflexivity|].
  simpl append. rewrite endswith_sep_cons; [exact IH|].
  now apply append_nonempty_r.
Qed.

(** A string ending with the separator is some string followed by it. *)
Lemma endswith_sep_inv (s : string) :
  Str.endswith Posixpath.sep s = true -> exists s', s = (s' ++ Posixpath.sep)%string.
Proof.
  induction s as [|a s IH]; [discriminate|].
  destruct s as [|b s].
  - simpl. destruct (Ascii.eqb_spec a "/"); [|discriminate].
    intros _. exists EmptyString. now subst.
  - rewrite endswith_sep_cons by discriminate. intros H.
    destruct (IH H) as [s' E]. exists (String a s'). simpl. now rewrite <- E.
Qed.

Lemma rstrip_no_sep (s : string) :
  Str.endswith Posixpath.sep s = false -> Str.rstrip Posixpath.sep_char s = s.
Proof.
  induction s as [|a s IH]; [reflexivity|].
  destruct s as [|b s].
  - simpl. unfold Posixpath.sep_char.
    destruct (Ascii.eqb a "/"); [discriminate | reflexivity].
  - rewrite endswith_sep_cons by discriminate. intros H.
    change (Str.rstrip Posixpath.sep_char (String a (String b s)))
      with (match Str.rstrip Posixpath.sep_char (String b s) with
            | EmptyString =>
                if Ascii.eqb a Posixpath.sep_char then EmptyString
                else String a EmptyString
            | r => String a r
            end).
    rewrite (IH H). reflexivity.
Qed.

Lemma rstrip_append_sep (s : string) :
  Str.rstrip Posixpath.sep_char (s ++ Posixpath.sep) = Str.rstrip Posixpath.sep_char s.
Proof.
  induction s as [|a s IH]; [reflexivity|].
  simpl. now rewrite IH.
Qed.

(** A name followed by the separator is not a run of separators. *)
Lemma not_all_sep (s : string) (n : nat) :
  s <> EmptyString -> Str.endswith Posixpath.sep s = false ->
  (s ++ Posixpath.sep)%string <> Str.replicate n Posixpath.sep_char.
Proof.
  revert n. induction s as [|a s IH]; intros n Hs He; [congruence|].
  destruct n as [|n]; [discriminate|].
  destruct s as [|b s].
  - simpl in *. unfold Posixpath.sep_char. intros E. injection E as Ea _.
    subst a. discriminate.
  - rewrite endswith_sep_cons in He by discriminate.
    simpl. intros E. injection E as _ E.
    apply (IH n); [discriminate | exact He | exact E].
Qed.

(** *** [rfind] and slices *)

Lemma rfind_lower (c : ascii) (s : string) : (-1 <= Str.rfind c s)%Z.
Proof.
  induction s as [|a s IH]; simpl; [lia|].
  destruct (Z.leb_spec 0 (Str.rfind c s)); [lia|].
  destruct (Ascii.eqb a c); lia.
Qed.

Lemma rfind_append_sep (c : ascii) (a b : string) :
  Str.rfind c b = (-1)%Z ->
  Str.rfind c (a ++ String c b) = Z.of_nat (String.length a).
Proof.
  intros Hb. induction a as [|x a IH].
  - simpl. rewrite Hb. simpl. now rewrite Ascii.eqb_refl.
  - simpl append. simpl Str.rfind. rewrite IH.
    destruct (Z.leb_spec 0 (Z.of_nat (String.length a))); simpl String.length; lia.
Qed.

Lemma take_append (a b : string) (k : nat) :
  Str.take (String.length a + k) (a ++ b) = (a ++ Str.take k b)%string.
Proof. induction a as [|x a IH]; simpl; [reflexivity | now rewrite IH]. Qed.

(** *** [dirname] and [join] *)

(** Joining a name that is not absolute. *)
Lemma join_relative (p b : string) :
  Str.startswith Posixpath.sep b = false ->
  Posixpath.join p b =
    (if negb (Str.truthy p) || Str.endswith Posixpath.sep p
     then p ++ b else p ++ Posixpath.sep ++ b)%string.
Proof. intros H. unfold Posixpath.join. now rewrite H. Qed.

(** The directory part of [d/n] is [d], for a [d] that does not end
    with the separator and a name [n] without one. *)
Lemma dirname_join_name (d n : string) :
  d <> EmptyString -> Str.endswith Posixpath.sep d = false ->
  Str.rfind Posixpath.sep_char n = (-1)%Z ->
  Posixpath.dirname (d ++ Posixpath.sep ++ n) = d.
Proof.
  intros Hd He Hn. unfold Posixpath.dirname, Posixpath.sep.
  simpl append.
  change (String "/" n) with (String Posixpath.sep_char n).
  rewrite rfind_append_sep by exact Hn.
  unfold Str.slice_to.
  destruct (Z.ltb_spec (Z.of_nat (String.length d) + 1) 0); [lia|].
  replace (Z.to_nat (Z.of_nat (String.length d) + 1)) with (String.length d + 1) by lia.
  rewrite take_append. simpl Str.take.
  change (String Posixpath.sep_char "") with Posixpath.sep.
  assert (Ht : Str.truthy (d ++ Posixpath.sep) = true).
  { apply truthy_true. now apply append_nonempty_r. }
  rewrite Ht. simpl andb.
  destruct (String.eqb_spec (d ++ Posixpath.sep)
              (Str.replicate (String.length (d ++ Posixpath.sep)) Posixpath.sep_char))
    as [E|_].
  - exfalso. exact (not_all_sep d _ Hd He E).
  - simpl. rewrite rstrip_append_sep. now apply rstrip_no_sep.
Qed.

End StrFacts.

Import Runtime Launcher Props.

(* ================================================================= *)
(** ** Facts about the launcher *)

Module LauncherFacts.
Import StrFacts.

Lemma join_bin (P : string) :
  Posixpath.join P "bin" = (P ++ glue P ++ "bin")%string.
Proof.
  rewrite join_relative by reflexivity. unfold glue.
  destruct (negb (Str.truthy P) || Str.endswith Posixpath.sep P); reflexivity.
Qed.

Lemma bin_dir_is_name (P : string) :
  Posixpath.join P "bin" <> EmptyString
  /\ Str.endswith Posixpath.sep (Posixpath.join P "bin") = false.
Proof.
  rewrite join_bin. split.
  - apply append_nonempty_r. unfold glue.
    destruct (negb (Str.truthy P) || Str.endswith Posixpath.sep P); discriminate.
  - rewrite <- append_assoc. rewrite endswith_sep_append by discriminate.
    reflexivity.
Qed.

Lemma join_ssh (d : string) :
  d <> EmptyString -> Str.endswith Posixpath.sep d = false ->
  Posixpath.join d "ssh" = (d ++ Posixpath.sep ++ "ssh")%string.
Proof.
  intros Hd He. rewrite join_relative by reflexivity.
  apply truthy_true in Hd. now rewrite Hd, He.
Qed.

(** The binary path is the [bin] directory, a separator and [ssh]. *)
Lemma binary_of_bin_dir (w : process) :
  binary_of w =
    (Posixpath.join (package_location w) "bin" ++ Posixpath.sep ++ "ssh")%string.
Proof.
  unfold binary_of.
  destruct (bin_dir_is_name (package_location w)) as [Hd He].
  now apply join_ssh.
Qed.

Lemma binary_of_spelling (w : process) :
  binary_of w =
    (package_location w ++ glue (package_location w) ++ "bin/ssh")%string.
Proof.
  rewrite binary_of_bin_dir, join_bin.
  rewrite !append_assoc. reflexivity.
Qed.

Lemma binary_nonempty (w : process) : binary_of w <> EmptyString.
Proof.
  rewrite binary_of_bin_dir. apply append_nonempty_r. discriminate.
Qed.

(** The binary path has a directory part, so [os.execvp] does not search
    [PATH] for it. *)
Lemma dirname_binary (w : process) :
  Posixpath.dirname (binary_of w) = Posixpath.join (package_location w) "bin".
Proof.
  rewrite binary_of_bin_dir.
  destruct (bin_dir_is_name (package_location w)) as [Hd He].
  now apply dirname_join_name.
Qed.

Lemma execvp_binary (w : process) (args : list string) :
  os_execvp (binary_of w) args = os_execv (binary_of w) args.
Proof.
  unfold os_execvp. rewrite dirname_binary.
  destruct (bin_dir_is_name (package_location w)) as [Hd _].
  apply truthy_true in Hd. now rewrite Hd.
Qed.

(** [log] leaves everything but the trace alone. *)
Lemma binary_of_log (e : event) (w : process) : binary_of (log e w) = binary_of w.
Proof. reflexivity. Qed.

Lemma ssh_path_returns (w : process) : ssh_path w = (Return (binary_of w), w).
Proof. reflexivity. Qed.

(** The ways through [main]. With the binary missing, the diagnostic is
    printed to the file that [sys.stderr] and [sys.stdout] leave; the
    write goes through and [sys.exit(1)] follows, or the write raises. *)
Lemma main_missing_cases (w : process) :
  p_isreg w (binary_of w) = false ->
  (diagnostic_target w = None
   /\ main w = (Raise (SystemExit 1), log (EvStat (binary_of w)) w))
  \/ (exists f,
        diagnostic_target w = Some f
        /\ ((p_write w f (diagnostic w) = None
             /\ main w = (Raise (SystemExit 1),
                          log (EvWrite f (diagnostic w))
                              (log (EvStat (binary_of w)) w)))
            \/ (exists e,
                  p_write w f (diagnostic w) = Some e
                  /\ main w = (Raise (OSError e),
                               log (EvWriteError f (diagnostic w) e)
                                   (log (EvStat (binary_of w)) w))))).
Proof.
  intros H.
  unfold main, bind. rewrite ssh_path_returns.
  unfold os_path_isfile. rewrite H.
  change (negb false) with true. cbv beta iota.
  unfold sys_stderr, print, diagnostic_target.
  change (p_stderr (log (EvStat (binary_of w)) w)) with (p_stderr w).
  change (p_stdout (log (EvStat (binary_of w)) w)) with (p_stdout w).
  change (p_write (log (EvStat (binary_of w)) w)) with (p_write w).
  fold newline. fold (diagnostic w).
  destruct (p_stderr w) as [f|]; [|destruct (p_stdout w) as [f|]].
  - right. exists f. split; [reflexivity|].
    destruct (p_write w f (diagnostic w)) as [e|].
    + right. exists e. now split.
    + left. now split.
  - right. exists f. split; [reflexivity|].
    destruct (p_write w f (diagnostic w)) as [e|].
    + right. exists e. now split.
    + left. now split.
  - left. now split.
Qed.

(** With [sys.stderr] the error stream and the write accepted. *)
Lemma main_missing (w : process) :
  p_isreg w (binary_of w) = false ->
  p_stderr w = Some Stderr ->
  p_write w Stderr (diagnostic w) = None ->
  main w = (Raise (SystemExit 1),
            log (EvWrite Stderr (diagnostic w)) (log (EvStat (binary_of w)) w)).
Proof.
  intros H Hs Hw.
  destruct (main_missing_cases w H) as [[Ht _] | (f & Ht & [[_ Hm] | (e & He & _)])];
    unfold diagnostic_target in Ht; rewrite Hs in Ht; try discriminate Ht;
    injection Ht as <-.
  - exact Hm.
  - congruence.
Qed.

Lemma main_present (w : process) :
  p_isreg w (binary_of w) = true ->
  main w = os_execv (binary_of w) (binary_of w :: caller_args w)
             (log (EvStat (binary_of w)) w).
Proof.
  intros H. unfold main, bind. rewrite ssh_path_returns.
  unfold os_path_isfile. rewrite H. unfold ret, sys_argv.
  change (negb true) with false. cbv beta iota.
  change ([binary_of w] ++ skipn 1 (p_argv (log (EvStat (binary_of w)) w)))
    with (binary_of w :: caller_args w).
  now rewrite execvp_binary.
Qed.

(** [os.execv] by the answer of the kernel. *)
Lemma execv_replaces (w : process) (path : string) (args : list string) :
  p_execve w path args (p_environ w) = None ->
  os_execv path args w =
    (Replaced (Image path args (p_environ w)), log (EvExecv path args) w).
Proof. intros H. unfold os_execv. now rewrite H. Qed.

Lemma execv_fails (w : process) (path : string) (args : list string) (e : os_error) :
  p_execve w path args (p_environ w) = Some e ->
  os_execv path args w = (Raise (OSError e), log (EvExecv path args) w).
Proof. intros H. unfold os_execv. now rewrite H. Qed.

(** What the streams received, and the exec calls, along a trace. *)
Lemma written_append (f : stream) (t u : list event) :
  written f (t ++ u) = (written f t ++ written f u)%string.
Proof.
  induction t as [|e t IH]; [reflexivity|].
  destruct e as [p | g s | g s x | p a]; simpl; try exact IH.
  destruct g, f; simpl; rewrite ?IH, ?append_assoc; reflexivity.
Qed.

Lemma exec_attempts_append (t u : list event) :
  exec_attempts (t ++ u) = exec_attempts t ++ exec_attempts u.
Proof.
  induction t as [|e t IH]; [reflexivity|].
  destruct e; simpl; now rewrite IH.
Qed.

(** The events of [main]: the [stat], then at most one more. With the
    binary missing it is the write of the diagnostic to the file that
    [sys.stderr] and [sys.stdout] leave, accepted or refused, or nothing
    when they leave none. *)
Lemma trace_missing (w : process) :
  p_isreg w (binary_of w) = false ->
  exists evs,
    p_trace (snd (main w)) = p_trace w ++ EvStat (binary_of w) :: evs
    /\ ((diagnostic_target w = None /\ evs = [])
        \/ exists f, diagnostic_target w = Some f
             /\ ((p_write w f (diagnostic w) = None
                  /\ evs = [EvWrite f (diagnostic w)])
                 \/ exists e, p_write w f (diagnostic w) = Some e
                      /\ evs = [EvWriteError f (diagnostic w) e])).
Proof.
  intros H.
  destruct (main_missing_cases w H)
    as [[Ht Hm] | (f & Ht & [[Hw Hm] | (e & He & Hm)])]; rewrite Hm; simpl.
  - exists []. split; [reflexivity|]. left. now split.
  - exists [EvWrite f (diagnostic w)]. split; [now rewrite <- app_assoc|].
    right. exists f. split; [exact Ht|]. left. now split.
  - exists [EvWriteError f (diagnostic w) e]. split; [now rewrite <- app_assoc|].
    right. exists f. split; [exact Ht|]. right. exists e. now split.
Qed.

Lemma trace_missing_printed (w : process) :
  p_isreg w (binary_of w) = false ->
  p_stderr w = Some Stderr ->
  p_write w Stderr (diagnostic w) = None ->
  p_trace (snd (main w)) =
    p_trace w ++ [EvStat (binary_of w); EvWrite Stderr (diagnostic w)].
Proof.
  intros H Hs Hw. rewrite (main_missing w H Hs Hw). simpl.
  now rewrite <- app_assoc.
Qed.

(** No exec call is among the events of the missing-binary path. *)
Lemma exec_attempts_missing (w : process) :
  p_isreg w (binary_of w) = false ->
  exec_attempts (p_trace (snd (main w))) = exec_attempts (p_trace w).
Proof.
  intros H. destruct (trace_missing w H) as (evs & Ht & Hc). rewrite Ht.
  rewrite exec_attempts_append.
  destruct Hc as [[_ ->] | (f & _ & [[_ ->] | (e & _ & ->)])];
    simpl; apply app_nil_r.
Qed.

Lemma trace_present (w : process) :
  p_isreg w (binary_of w) = true ->
  p_trace (snd (main w)) =
    p_trace w ++ [EvStat (binary_of w);
                  EvExecv (binary_of w) (binary_of w :: caller_args w)].
Proof.
  intros H. rewrite (main_present w H). unfold os_execv.
  destruct (p_execve _ _ _ _); simpl; now rewrite <- app_assoc.
Qed.

(** *** What the binary path names *)

Lemma components_append_sep (cur a b : string) :
  PathSpec.components_from cur (a ++ Posixpath.sep ++ b) =
    PathSpec.components_from cur a ++ PathSpec.components_from EmptyString b.
Proof.
  revert cur. induction a as [|x a IH]; intros cur.
  - simpl. destruct (Str.truthy cur); reflexivity.
  - simpl append. simpl PathSpec.components_from.
    destruct (Ascii.eqb x Posixpath.sep_char).
    + destruct (Str.truthy cur); simpl; now rewrite IH.
    + apply IH.
Qed.

Lemma isabs_cons (a : ascii) (s : string) :
  Posixpath.isabs (String a s) = Ascii.eqb a Posixpath.sep_char.
Proof.
  unfold Posixpath.isabs, Str.startswith, Posixpath.sep, Posixpath.sep_char.
  change (String.prefix "/" (String a s))
    with (if ascii_dec "/" a then String.prefix "" s else false).
  destruct (ascii_dec "/" a) as [<-|Hn].
  - now destruct s.
  - symmetry. apply Ascii.eqb_neq. congruence.
Qed.

Lemma denote_join_bin_ssh (P : string) :
  PathSpec.denote (P ++ glue P ++ "bin/ssh") = PathSpec.spec_resolveBinaryPath P.
Proof.
  unfold PathSpec.spec_resolveBinaryPath, PathSpec.descend, PathSpec.denote.
  simpl PathSpec.absolute. simpl PathSpec.names.
  f_equal.
  - destruct P as [|a P]; [reflexivity|].
    simpl append. now rewrite !isabs_cons.
  - unfold glue. destruct (Str.truthy P) eqn:Ht; simpl negb; simpl orb.
    + destruct (Str.endswith Posixpath.sep P) eqn:He.
      * destruct (endswith_sep_inv P He) as [P' ->].
        change ((P' ++ Posixpath.sep) ++ "" ++ "bin/ssh")%string
          with ((P' ++ Posixpath.sep) ++ "bin/ssh")%string.
        rewrite append_assoc.
        rewrite (components_append_sep EmptyString P' "bin/ssh").
        rewrite <- (append_empty_r (P' ++ Posixpath.sep)), append_assoc.
        rewrite (components_append_sep EmptyString P' EmptyString).
        simpl. now rewrite app_nil_r.
      * apply (components_append_sep EmptyString P "bin/ssh").
    + apply truthy_false in Ht. subst P. reflexivity.
Qed.

End LauncherFacts.

Module OutcomeFacts.
Import StrFacts LauncherFacts.

(** The ways [main] can end, with the state it ends in. With the binary
    missing it raises: [SystemExit(1)], or the [OSError] of a refused write
    of the diagnostic. *)
Lemma main_cases (w : process) :
  let b := binary_of w in
  let argv := b :: caller_args w in
  (p_isreg w b = false
   /\ exists x w',
        main w = (Raise x, w')
        /\ (x = SystemExit 1
            \/ exists e f, x = OSError e
                 /\ diagnostic_target w = Some f
                 /\ p_write w f (diagnostic w) = Some e))
  \/ (p_isreg w b = true
      /\ p_execve w b argv (p_environ w) = None
      /\ main w = (Replaced (Image b argv (p_environ w)),
                   log (EvExecv b argv) (log (EvStat b) w)))
  \/ (p_isreg w b = true
      /\ exists e, p_execve w b argv (p_environ w) = Some e
         /\ main w = (Raise (OSError e),
                      log (EvExecv b argv) (log (EvStat b) w))).
Proof.
  intros b argv. destruct (p_isreg w b) eqn:Hreg.
  - right. destruct (p_execve w b argv (p_environ w)) as [e|] eqn:Hx.
    + right. split; [reflexivity|]. exists e. split; [reflexivity|].
      rewrite (main_present w Hreg).
      exact (execv_fails (log (EvStat b) w) b argv e Hx).
    + left. split; [reflexivity|]. split; [reflexivity|].
      rewrite (main_present w Hreg).
      exact (execv_replaces (log (EvStat b) w) b argv Hx).
  - left. split; [reflexivity|].
    destruct (main_missing_cases w Hreg)
      as [[Ht Hm] | (f & Ht & [[Hw Hm] | (e & He & Hm)])];
      rewrite Hm; do 2 eexists; (split; [reflexivity|]).
    + now left.
    + now left.
    + right. exists e, f. now repeat split.
Qed.

(** The streams along the traces of [main]. *)
Lemma written_stat_exec (f : stream) (t : list event) (p q : string) (a : list string) :
  written f (t ++ [EvStat p; EvExecv q a]) = written f t.
Proof. rewrite written_append. simpl. apply append_empty_r. Qed.

Lemma written_stderr_stat_write (t : list event) (p s : string) :
  written Stderr (t ++ [EvStat p; EvWrite Stderr s]) = (written Stderr t ++ s)%string.
Proof. rewrite written_append. simpl. now rewrite append_empty_r. Qed.

Lemma written_stdout_stat_write (t : list event) (p s : string) :
  written Stdout (t ++ [EvStat p; EvWrite Stderr s]) = written Stdout t.
Proof. rewrite written_append. simpl. apply append_empty_r. Qed.

Lemma written_write (f g : stream) (s : string) :
  written f [EvWrite g s] = if stream_eqb f g then s else EmptyString.
Proof. destruct f, g; simpl; rewrite ?append_empty_r; reflexivity. Qed.

(** What a stream receives on the missing-binary path: the diagnostic, if
    it is the stream the diagnostic is printed to and takes it. *)
Lemma written_missing (w : process) (f : stream) :
  p_isreg w (binary_of w) = false ->
  written f (p_trace (snd (main w)))
  = (written f (p_trace w)
     ++ match diagnostic_target w with
        | Some g =>
            if stream_eqb f g
            then match p_write w g (diagnostic w) with
                 | None => diagnostic w
                 | Some _ => EmptyString
                 end
            else EmptyString
        | None => EmptyString
        end)%string.
Proof.
  intros H. destruct (trace_missing w H) as (evs & Ht & Hc). rewrite Ht.
  rewrite written_append. f_equal.
  change (written f (EvStat (binary_of w) :: evs)) with (written f evs).
  destruct Hc as [[-> ->] | (g & -> & [[-> ->] | (e & -> & ->)])].
  - reflexivity.
  - apply written_write.
  - simpl. now destruct (stream_eqb f g).
Qed.

(** The state [main] ends in differs from the one it started in by the
    trace only. *)
Lemma main_frame (w : process) :
  p_environ (snd (main w)) = p_environ w
  /\ p_cwd (snd (main w)) = p_cwd w
  /\ p_argv (snd (main w)) = p_argv w
  /\ p_file (snd (main w)) = p_file w
  /\ p_stdout (snd (main w)) = p_stdout w
  /\ p_stderr (snd (main w)) = p_stderr w
  /\ p_isreg (snd (main w)) = p_isreg w
  /\ p_write (snd (main w)) = p_write w
  /\ p_execve (snd (main w)) = p_execve w.
Proof.
  destruct (p_isreg w (binary_of w)) eqn:Hreg.
  - rewrite (main_present w Hreg). unfold os_execv.
    destruct (p_execve _ _ _ _); repeat split; reflexivity.
  - destruct (main_missing_cases w Hreg)
      as [[Ht Hm] | (f & Ht & [[Hw Hm] | (e & He & Hm)])];
      rewrite Hm; repeat split; reflexivity.
Qed.

(** The events of [main] after the [stat]: one exec call, or what the
    print of the diagnostic left. *)
Lemma main_events (w : process) :
  exists evs,
    p_trace (snd (main w)) = p_trace w ++ EvStat (binary_of w) :: evs
    /\ (evs = [EvExecv (binary_of w) (binary_of w :: caller_args w)]
        \/ evs = []
        \/ exists f,
             evs = [EvWrite f (not_found_message (binary_of w) ++ newline)]
             \/ exists e,
                  evs = [EvWriteError f (not_found_message (binary_of w) ++ newline) e]).
Proof.
  destruct (p_isreg w (binary_of w)) eqn:Hreg.
  - eexists. split; [apply (trace_present w Hreg)|]. now left.
  - destruct (trace_missing w Hreg) as (evs & Ht & Hc). exists evs.
    split; [exact Ht|].
    destruct Hc as [[_ ->] | (f & _ & [[_ ->] | (e & _ & ->)])].
    + right. now left.
    + right. right. exists f. now left.
    + right. right. exists f. right. now exists e.
Qed.

Lemma main_events_printed (w : process) :
  p_stderr w = Some Stderr ->
  p_write w Stderr (diagnostic w) = None ->
  exists ev,
    p_trace (snd (main w)) = p_trace w ++ [EvStat (binary_of w); ev]
    /\ (ev = EvWrite Stderr (not_found_message (binary_of w) ++ newline)
        \/ ev = EvExecv (binary_of w) (binary_of w :: caller_args w)).
Proof.
  intros Hs Hw. destruct (p_isreg w (binary_of w)) eqn:Hreg.
  - eexists. split; [apply (trace_present w Hreg)|]. now right.
  - eexists. split; [apply (trace_missing_printed w Hreg Hs Hw)|]. now left.
Qed.

Lemma glue_no_line_end (P : string) : line_ends (glue P) = 0.
Proof.
  unfold glue. destruct (negb (Str.truthy P) || Str.endswith Posixpath.sep P);
    reflexivity.
Qed.

Lemma line_ends_binary (w : process) :
  line_ends (binary_of w) = line_ends (package_location w).
Proof.
  rewrite binary_of_spelling. unfold line_ends.
  rewrite !count_append. fold (line_ends (glue (package_location w))).
  rewrite glue_no_line_end. simpl. lia.
Qed.

Lemma line_ends_diagnostic (w : process) :
  line_ends (diagnostic w) = S (line_ends (package_location w)).
Proof.
  unfold diagnostic, not_found_message, line_ends.
  rewrite !count_append. fold (line_ends (binary_of w)).
  rewrite line_ends_binary. simpl. unfold line_ends. lia.
Qed.

(** *** The shape of a directory part *)

Lemma endswith_rstrip (s : string) :
  Str.endswith Posixpath.sep (Str.rstrip Posixpath.sep_char s) = false.
Proof.
  induction s as [|a s IH]; [reflexivity|].
  simpl Str.rstrip. destruct (Str.rstrip Posixpath.sep_char s) as [|b r] eqn:E.
  - unfold Posixpath.sep_char. destruct (Ascii.eqb a "/") eqn:Ea; [reflexivity|].
    simpl. now rewrite Ea.
  - rewrite endswith_sep_cons by discriminate. exact IH.
Qed.

Lemma rstrip_empty (s : string) :
  Str.rstrip Posixpath.sep_char s = EmptyString ->
  s = Str.replicate (String.length s) Posixpath.sep_char.
Proof.
  induction s as [|a s IH]; [reflexivity|].
  simpl Str.rstrip. destruct (Str.rstrip Posixpath.sep_char s) as [|b r] eqn:E;
    [|discriminate].
  destruct (Ascii.eqb_spec a Posixpath.sep_char) as [->|]; [|discriminate].
  intros _. simpl. now rewrite <- IH.
Qed.

(** [dirname] returns the empty string, a run of separators, or a
    string that does not end with the separator. *)
Lemma dirname_shape (p : string) :
  let P := Posixpath.dirname p in
  P = EmptyString
  \/ P = Str.replicate (String.length P) Posixpath.sep_char
  \/ (P <> EmptyString /\ Str.endswith Posixpath.sep P = false).
Proof.
  unfold Posixpath.dirname.
  set (head := Str.slice_to (Str.rfind Posixpath.sep_char p + 1) p).
  destruct (Str.truthy head) eqn:Ht; simpl andb.
  - destruct (String.eqb_spec head
                (Str.replicate (String.length head) Posixpath.sep_char)) as [E|N];
      simpl negb; cbv iota.
    + right. left. exact E.
    + right. right. split; [|apply endswith_rstrip].
      intros E. apply N. now apply rstrip_empty.
  - left. now apply truthy_false.
Qed.

Lemma components_all_sep (n : nat) :
  PathSpec.components_from EmptyString (Str.replicate n Posixpath.sep_char) = [].
Proof. induction n as [|n IH]; [reflexivity | exact IH]. Qed.

(** A package location with a name in it gets the separator. *)
Lemma glue_named (w : process) :
  PathSpec.names (PathSpec.denote (package_location w)) <> [] ->
  glue (package_location w) = Posixpath.sep.
Proof.
  unfold package_location. intros Hn.
  destruct (dirname_shape (p_file w)) as [E | [E | [Hne He]]].
  - rewrite E in Hn. now elim Hn.
  - rewrite E in Hn. simpl in Hn. rewrite components_all_sep in Hn. now elim Hn.
  - unfold glue. apply truthy_true in Hne. now rewrite Hne, He.
Qed.

End OutcomeFacts.

(* ================================================================= *)
(** ** Properties of the launcher *)

Import StrFacts LauncherFacts OutcomeFacts.

(** C3. For the installed package location [P] (the directory part of
    [__file__]), [ssh_path] returns [P/bin/ssh]: the string [P], the
    separator unless [P] is empty or already ends with one, and [bin/ssh];
    character for character [P ++ "/bin/ssh"] whenever [P] has a name in it;
    and in every case a path that names the entry [ssh] of the entry [bin]
    of [P]. The call always returns, leaves the process as it was (no event
    is added to the trace, so no [stat] is made), and its value does not
    depend on the working directory or on [sys.argv]. *)
Theorem ssh_path_is_location_bin_ssh (w : process) :
  let P := package_location w in
  ssh_path w = (Return (P ++ glue P ++ "bin/ssh")%string, w)
  /\ (PathSpec.names (PathSpec.denote P) <> [] ->
      ssh_path w = (Return (P ++ "/bin/ssh")%string, w))
  /\ (forall b, fst (ssh_path w) = Return b ->
      PathSpec.denote b = PathSpec.spec_resolveBinaryPath P)
  /\ (forall cwd argv,
      fst (ssh_path (with_cwd cwd (with_argv argv w))) = fst (ssh_path w)).
Proof.
  intros P.
  assert (Hs : ssh_path w = (Return (P ++ glue P ++ "bin/ssh")%string, w)).
  { rewrite ssh_path_returns, binary_of_spelling. reflexivity. }
  split; [exact Hs|]. split; [|split].
  - intros Hn. rewrite Hs. unfold P. now rewrite (glue_named w Hn).
  - intros b Hb. rewrite Hs in Hb. injection Hb as <-. apply denote_join_bin_ssh.
  - intros cwd argv. reflexivity.
Qed.

Lemma ssh_path_is_location_bin_ssh_witness :
  PathSpec.names (PathSpec.denote (package_location Scenario.present)) <> []
  /\ ssh_path Scenario.present = (Return "/opt/tool/bin/ssh", Scenario.present)
  /\ PathSpec.denote "/opt/tool/bin/ssh" = PathSpec.Path true ["opt"; "tool"; "bin"; "ssh"].
Proof.
  assert (Hn : PathSpec.names (PathSpec.denote (package_location Scenario.present)) <> [])
    by (vm_compute; discriminate).
  destruct (ssh_path_is_location_bin_ssh Scenario.present) as (_ & Hs & Hd & _).
  split; [exact Hn|]. split.
  - exact (Hs Hn).
  - exact (Hd "/opt/tool/bin/ssh" eq_refl).
Defined.

(** C7. The binary path is determined by the package location: two
    processes with the same [__file__] get the same value from [ssh_path],
    whatever else differs. Computing it changes nothing, so computing it
    again gives the same value; and the value [main] computes is the one
    it then uses, unchanged, for the [stat] and for the message or the
    exec: after the [stat] of it comes the exec call on it, or what the
    print of the message about it left (the message accepted by a stream,
    refused by it, or nothing when no stream is connected), and with the
    error stream taking the message exactly one such event. *)
Theorem ssh_path_deterministic (w1 w2 : process) :
  p_file w1 = p_file w2 ->
  fst (ssh_path w1) = fst (ssh_path w2)
  /\ snd (ssh_path w1) = w1
  /\ (exists b, (x <- ssh_path ;; y <- ssh_path ;; ret (x, y)) w1 = (Return (b, b), w1))
  /\ (forall b, fst (ssh_path w1) = Return b ->
      exists evs,
        p_trace (snd (main w1)) = p_trace w1 ++ EvStat b :: evs
        /\ (evs = [EvExecv b (b :: caller_args w1)]
            \/ evs = []
            \/ exists f,
                 evs = [EvWrite f (not_found_message b ++ newline)]
                 \/ exists e,
                      evs = [EvWriteError f (not_found_message b ++ newline) e]))
  /\ (forall b, fst (ssh_path w1) = Return b ->
      p_stderr w1 = Some Stderr ->
      p_write w1 Stderr (not_found_message b ++ newline) = None ->
      exists ev, p_trace (snd (main w1)) = p_trace w1 ++ [EvStat b; ev]
                 /\ (ev = EvWrite Stderr (not_found_message b ++ newline)
                     \/ ev = EvExecv b (b :: caller_args w1))).
Proof.
  intros Hf. rewrite !ssh_path_returns. simpl fst. simpl snd.
  split; [|split; [reflexivity|split; [|split]]].
  - unfold binary_of, package_location. now rewrite Hf.
  - exists (binary_of w1). reflexivity.
  - intros b Hb. injection Hb as <-. apply main_events.
  - intros b Hb. injection Hb as <-. apply main_events_printed.
Qed.

Lemma ssh_path_deterministic_witness :
  p_file Scenario.present = p_file Scenario.absent
  /\ fst (ssh_path Scenario.present) = fst (ssh_path Scenario.absent).
Proof.
  split; [reflexivity|].
  exact (proj1 (ssh_path_deterministic Scenario.present Scenario.absent eq_refl)).
Defined.




(** C10, as the code has it. On the missing-binary path nothing of the
    process changes but its trace: the environment, the working directory,
    the arguments, the standard streams and what the file system answers
    are as before, no exec is tried, and after the [stat] of the binary
    path comes at most one event, the write of the diagnostic. When
    [sys.stderr] is the error stream, nothing reaches standard output; when
    that stream also takes the diagnostic, the final state is the initial
    one with exactly two events added, the [stat] and that write. *)
Theorem missing_binary_frame (w : process) :
  p_isreg w (binary_of w) = false ->
  (p_environ (snd (main w)) = p_environ w
   /\ p_cwd (snd (main w)) = p_cwd w
   /\ p_argv (snd (main w)) = p_argv w
   /\ p_file (snd (main w)) = p_file w
   /\ p_stdout (snd (main w)) = p_stdout w
   /\ p_stderr (snd (main w)) = p_stderr w
   /\ p_isreg (snd (main w)) = p_isreg w
   /\ p_write (snd (main w)) = p_write w
   /\ p_execve (snd (main w)) = p_execve w)
  /\ exec_attempts (p_trace (snd (main w))) = exec_attempts (p_trace w)
  /\ (exists evs,
        p_trace (snd (main w)) = p_trace w ++ EvStat (binary_of w) :: evs
        /\ (evs = []
            \/ exists f, evs = [EvWrite f (diagnostic w)]
                 \/ exists e, evs = [EvWriteError f (diagnostic w) e]))
  /\ (p_stderr w = Some Stderr ->
      written Stdout (p_trace (snd (main w))) = written Stdout (p_trace w))
  /\ (p_stderr w = Some Stderr ->
      p_write w Stderr (diagnostic w) = None ->
      snd (main w)
      = log (EvWrite Stderr (diagnostic w)) (log (EvStat (binary_of w)) w)
      /\ p_trace (snd (main w))
         = p_trace w ++ [EvStat (binary_of w); EvWrite Stderr (diagnostic w)]).
Proof.
  intros H. split; [apply main_frame|].
  split; [now apply exec_attempts_missing|]. split; [|split].
  - destruct (trace_missing w H) as (evs & Ht & Hc). exists evs.
    split; [exact Ht|].
    destruct Hc as [[_ ->] | (f & _ & [[_ ->] | (e & _ & ->)])].
    + now left.
    + right. exists f. now left.
    + right. exists f. right. now exists e.
  - intros Hs. rewrite (written_missing w Stdout H).
    unfold diagnostic_target. rewrite Hs. simpl. apply append_empty_r.
  - intros Hs Hw. rewrite (trace_missing_printed w H Hs Hw), (main_missing w H Hs Hw).
    now split.
Qed.

Lemma missing_binary_frame_witness :
  p_isreg Scenario.absent (binary_of Scenario.absent) = false
  /\ written Stdout (p_trace (snd (main Scenario.absent))) = EmptyString
  /\ p_environ (snd (main Scenario.absent)) = Scenario.user_environ.
Proof.
  destruct (missing_binary_frame Scenario.absent eq_refl)
    as ((He & _) & _ & _ & Ho & _).
  split; [reflexivity|]. split; [exact (Ho eq_refl) | exact He].
Defined.

(** C10, as stated, fails: started with the error stream closed,
    [sys.stderr] is [None], [print] falls back on [sys.stdout], and the
    diagnostic of the missing binary is written to standard output. *)
Lemma diagnostic_on_stdout :
  p_isreg Scenario.absent_stderr_closed (binary_of Scenario.absent_stderr_closed) = false
  /\ written Stdout (p_trace (snd (main Scenario.absent_stderr_closed)))
     = ("Error: ssh binary not found at /opt/tool/bin/ssh" ++ newline)%string
  /\ written Stdout (p_trace (snd (main Scenario.absent_stderr_closed))) <> EmptyString
  /\ written Stderr (p_trace (snd (main Scenario.absent_stderr_closed))) = EmptyString.
Proof.
  split; [reflexivity|]. split; [reflexivity|]. split; [discriminate|reflexivity].
Qed.

(** C1, as the code has it. When the binary path is a regular file and the
    kernel accepts the exec of it, [main] replaces the process image by
    that binary: the new image gets the binary path as its first argument,
    then the caller's arguments [sys.argv[1:]], and the environment of the
    process; nothing was written to either standard stream before, and the
    only events are the [stat] and the exec. *)
Theorem main_replaces_process (w : process) :
  p_isreg w (binary_of w) = true ->
  p_execve w (binary_of w) (binary_of w :: caller_args w) (p_environ w) = None ->
  fst (main w)
  = Replaced (Image (binary_of w) (binary_of w :: caller_args w) (p_environ w))
  /\ p_trace (snd (main w))
     = p_trace w ++ [EvStat (binary_of w);
                      EvExecv (binary_of w) (binary_of w :: caller_args w)]
  /\ written Stdout (p_trace (snd (main w))) = written Stdout (p_trace w)
  /\ written Stderr (p_trace (snd (main w))) = written Stderr (p_trace w)
  /\ p_environ (snd (main w)) = p_environ w.
Proof.
  intros Hreg Hx. rewrite (trace_present w Hreg), !written_stat_exec.
  rewrite (main_present w Hreg).
  rewrite (execv_replaces (log (EvStat (binary_of w)) w) _ _ Hx).
  repeat split; reflexivity.
Qed.

Lemma main_replaces_process_witness :
  p_isreg Scenario.present (binary_of Scenario.present) = true
  /\ fst (main Scenario.present)
     = Replaced (Image "/opt/tool/bin/ssh"
                       ["/opt/tool/bin/ssh"; "user@host"; "-p"; "2222"]
                       Scenario.user_environ).
Proof.
  split; [reflexivity|].
  exact (proj1 (main_replaces_process Scenario.present eq_refl eq_refl)).
Defined.

(** C1, as stated, fails: with the binary a regular file without execute
    permission the check passes, the exec is refused, and the process is
    not replaced. *)
Lemma regular_file_not_replaced :
  p_isreg Scenario.not_executable (binary_of Scenario.not_executable) = true
  /\ fst (main Scenario.not_executable) = Raise (OSError PermissionError)
  /\ ~ (exists i, fst (main Scenario.not_executable) = Replaced i).
Proof.
  split; [reflexivity|]. split; [reflexivity|].
  intros [i H]. discriminate H.
Qed.

(** C4. Every exec call of [main] carries the binary path followed by the
    caller's arguments [sys.argv[1:]] as they are: when the binary path is a
    regular file there is exactly one such call, on the binary path itself
    (no search along [PATH]); and whenever the process is replaced, the
    new image receives the binary path and then the caller's arguments, the
    same number of them, each at its place. The arguments are a list of
    strings from end to end: no command line is built or parsed. *)
Theorem argv_forwarded_verbatim (w : process) :
  let b := binary_of w in
  (p_isreg w b = true ->
   exec_attempts (p_trace (snd (main w)))
   = exec_attempts (p_trace w) ++ [(b, b :: caller_args w)])
  /\ (forall i, fst (main w) = Replaced i ->
      img_argv i = b :: caller_args w
      /\ tl (img_argv i) = caller_args w
      /\ length (tl (img_argv i)) = length (caller_args w)
      /\ forall k, nth_error (tl (img_argv i)) k = nth_error (caller_args w) k)
  /\ (forall prog args, p_argv w = prog :: args -> caller_args w = args).
Proof.
  intros b. split; [|split].
  - intros Hreg. rewrite (trace_present w Hreg), exec_attempts_append.
    reflexivity.
  - intros i Hi.
    assert (E : img_argv i = b :: caller_args w).
    { destruct (main_cases w)
        as [(_ & x & w' & Hm & _) | [(_ & _ & Hm) | (_ & e & _ & Hm)]];
        fold b in Hm; rewrite Hm in Hi; simpl in Hi;
        try discriminate Hi.
      now injection Hi as <-. }
    rewrite E. repeat split; reflexivity.
  - intros prog args E. unfold caller_args. now rewrite E.
Qed.

Lemma argv_forwarded_verbatim_witness :
  p_isreg Scenario.present_odd (binary_of Scenario.present_odd) = true
  /\ exec_attempts (p_trace (snd (main Scenario.present_odd)))
     = [("/opt/tool/bin/ssh", "/opt/tool/bin/ssh" :: Scenario.odd_args)]
  /\ (forall i, fst (main Scenario.present_odd) = Replaced i ->
      tl (img_argv i) = Scenario.odd_args).
Proof.
  destruct (argv_forwarded_verbatim Scenario.present_odd) as (Ha & Hi & _).
  split; [reflexivity|]. split.
  - exact (Ha eq_refl).
  - intros i H. exact (proj1 (proj2 (Hi i H))).
Defined.

(** C9. When the existence check passes and the exec itself fails, [main]
    ends with the [OSError] that [os.execvp] raised: it is not caught, no
    diagnostic is written to the error stream, and the exception is not the
    [SystemExit(1)] of the missing-binary path. *)
Theorem exec_failure_propagates (w : process) (e : os_error) :
  p_isreg w (binary_of w) = true ->
  p_execve w (binary_of w) (binary_of w :: caller_args w) (p_environ w) = Some e ->
  main w = (Raise (OSError e),
            log (EvExecv (binary_of w) (binary_of w :: caller_args w))
                (log (EvStat (binary_of w)) w))
  /\ written Stderr (p_trace (snd (main w))) = written Stderr (p_trace w)
  /\ fst (main w) <> Raise (SystemExit 1).
Proof.
  intros Hreg Hx. rewrite (trace_present w Hreg), written_stat_exec.
  rewrite (main_present w Hreg).
  rewrite (execv_fails (log (EvStat (binary_of w)) w) _ _ e Hx).
  repeat split. discriminate.
Qed.

Lemma exec_failure_propagates_witness :
  p_isreg Scenario.not_executable (binary_of Scenario.not_executable) = true
  /\ fst (main Scenario.not_executable) = Raise (OSError PermissionError)
  /\ written Stderr (p_trace (snd (main Scenario.not_executable))) = EmptyString.
Proof.
  destruct (exec_failure_propagates Scenario.not_executable PermissionError
              eq_refl eq_refl) as (Hm & Hw & _).
  split; [reflexivity|]. split.
  - now rewrite Hm.
  - exact Hw.
Defined.







(** C8, as the code has it. On the missing-binary path, with [sys.stderr]
    the error stream and the stream taking the data, [main] writes to the
    error stream once, before it raises [SystemExit]: the message
    [Error: ssh binary not found at] with the binary path, and a line end.
    The text has one line end more than the package location; it is exactly
    one line when the package location contains no line end. *)
Theorem one_diagnostic_written (w : process) :
  p_isreg w (binary_of w) = false ->
  p_stderr w = Some Stderr ->
  p_write w Stderr (not_found_message (binary_of w) ++ newline) = None ->
  main w = (Raise (SystemExit 1),
            log (EvWrite Stderr (not_found_message (binary_of w) ++ newline))
                (log (EvStat (binary_of w)) w))
  /\ written Stderr (p_trace (snd (main w)))
     = (written Stderr (p_trace w) ++ not_found_message (binary_of w) ++ newline)%string
  /\ Str.contains (binary_of w) (not_found_message (binary_of w)) = true
  /\ line_ends (not_found_message (binary_of w) ++ newline)
     = S (line_ends (package_location w))
  /\ (line_ends (package_location w) = 0 ->
      line_ends (not_found_message (binary_of w)) = 0
      /\ line_ends (not_found_message (binary_of w) ++ newline) = 1).
Proof.
  intros H Hs Hw.
  rewrite (trace_missing_printed w H Hs Hw), (main_missing w H Hs Hw).
  split; [reflexivity|]. split; [apply written_stderr_stat_write|].
  split; [|split].
  - unfold not_found_message.
    rewrite <- (append_empty_r (binary_of w)) at 2. apply contains_append.
  - apply line_ends_diagnostic.
  - intros H0. pose proof (line_ends_diagnostic w) as Hd.
    unfold diagnostic, line_ends in *. rewrite count_append in *.
    simpl in *. lia.
Qed.

Lemma one_diagnostic_written_witness :
  p_isreg Scenario.absent (binary_of Scenario.absent) = false
  /\ line_ends (package_location Scenario.absent) = 0
  /\ written Stderr (p_trace (snd (main Scenario.absent)))
     = ("Error: ssh binary not found at /opt/tool/bin/ssh" ++ newline)%string
  /\ line_ends (written Stderr (p_trace (snd (main Scenario.absent)))) = 1.
Proof.
  destruct (one_diagnostic_written Scenario.absent eq_refl eq_refl eq_refl)
    as (_ & Hw & _ & _ & H1).
  split; [reflexivity|]. split; [reflexivity|]. split.
  - exact Hw.
  - rewrite Hw. exact (proj2 (H1 eq_refl)).
Defined.

(** C8, as stated, fails in two ways. With a line end in the name of the
    package directory, the diagnostic for the missing binary takes two
    lines of the error stream. And started with the error stream closed,
    [sys.stderr] is [None]: no line at all is written to the error stream,
    the diagnostic is on standard output. *)
Lemma diagnostic_not_one_stderr_line :
  (p_isreg Scenario.absent_two_lines (binary_of Scenario.absent_two_lines) = false
   /\ fst (main Scenario.absent_two_lines) = Raise (SystemExit 1)
   /\ line_ends (written Stderr (p_trace (snd (main Scenario.absent_two_lines)))) = 2
   /\ line_ends (written Stderr (p_trace (snd (main Scenario.absent_two_lines)))) <> 1)
  /\ (p_isreg Scenario.absent_stderr_closed (binary_of Scenario.absent_stderr_closed) = false
      /\ fst (main Scenario.absent_stderr_closed) = Raise (SystemExit 1)
      /\ line_ends (written Stderr (p_trace (snd (main Scenario.absent_stderr_closed)))) = 0
      /\ line_ends (written Stdout (p_trace (snd (main Scenario.absent_stderr_closed)))) = 1).
Proof.
  split.
  - split; [reflexivity|]. split; [reflexivity|]. split; [reflexivity|].
    vm_compute. discriminate.
  - split; [reflexivity|]. split; [reflexivity|]. split; reflexivity.
Qed.


(* ================================================================= *)
(** ** Further properties of the path functions and of [main] *)

Module DirFacts.
Import StrFacts LauncherFacts OutcomeFacts.

Lemma rfind_empty (c : ascii) : Str.rfind c EmptyString = (-1)%Z.
Proof. reflexivity. Qed.

(** A slice up to a positive bound keeps the first character. *)
Lemma slice_to_cons (r : Z) (a : ascii) (t : string) :
  (0 <= r)%Z ->
  Str.slice_to (r + 1) (String a t) = String a (Str.take (Z.to_nat r) t).
Proof.
  intros Hr. unfold Str.slice_to.
  destruct (Z.ltb_spec (r + 1) 0); [lia|].
  replace (Z.to_nat (r + 1)) with (S (Z.to_nat r)) by lia.
  reflexivity.
Qed.

(** [rstrip] keeps the first character of what it does not erase. *)
Lemma rstrip_cons_head (c a : ascii) (t : string) :
  Str.rstrip c (String a t) = EmptyString
  \/ exists r, Str.rstrip c (String a t) = String a r.
Proof.
  simpl. destruct (Str.rstrip c t) as [|b r].
  - destruct (Ascii.eqb a c); [now left | right; now eexists].
  - right. now eexists.
Qed.

(** [dirname] is empty exactly on the strings without a separator. *)
Lemma dirname_empty_iff (f : string) :
  Posixpath.dirname f = EmptyString <-> Str.rfind Posixpath.sep_char f = (-1)%Z.
Proof.
  split.
  - intros Hd. pose proof (rfind_lower Posixpath.sep_char f) as Hl.
    destruct (Z.eq_dec (Str.rfind Posixpath.sep_char f) (-1)) as [E|N]; [exact E|].
    exfalso. destruct f as [|a t]; [now apply N|].
    unfold Posixpath.dirname in Hd.
    rewrite slice_to_cons in Hd by lia.
    set (head := String a (Str.take (Z.to_nat (Str.rfind Posixpath.sep_char (String a t))) t))
      in Hd.
    destruct (String.eqb_spec head
                (Str.replicate (String.length head) Posixpath.sep_char)) as [E|NE].
    + rewrite andb_false_r in Hd. discriminate Hd.
    + change (Str.truthy head) with true in Hd. simpl in Hd.
      apply NE. now apply rstrip_empty.
  - intros H. unfold Posixpath.dirname. rewrite H. reflexivity.
Qed.

(** A non-empty directory part starts as the path does. *)
Lemma dirname_head (a : ascii) (t : string) :
  Posixpath.dirname (String a t) = EmptyString
  \/ exists r, Posixpath.dirname (String a t) = String a r.
Proof.
  pose proof (rfind_lower Posixpath.sep_char (String a t)) as Hl.
  destruct (Z.eq_dec (Str.rfind Posixpath.sep_char (String a t)) (-1)) as [E|N].
  - left. now apply dirname_empty_iff.
  - unfold Posixpath.dirname. rewrite slice_to_cons by lia.
    set (head := String a (Str.take (Z.to_nat (Str.rfind Posixpath.sep_char (String a t))) t)).
    destruct (Str.truthy head
              && negb (String.eqb head
                         (Str.replicate (String.length head) Posixpath.sep_char))).
    + apply rstrip_cons_head.
    + right. now eexists.
Qed.

Lemma rfind_cons_sep (c : ascii) (t : string) : (0 <= Str.rfind c (String c t))%Z.
Proof.
  simpl. pose proof (rfind_lower c t).
  destruct (Z.leb_spec 0 (Str.rfind c t)); [lia|].
  rewrite Ascii.eqb_refl. lia.
Qed.

(** The directory part is absolute exactly when the path is. *)
Lemma isabs_dirname (f : string) :
  Posixpath.isabs (Posixpath.dirname f) = Posixpath.isabs f.
Proof.
  destruct f as [|a t]; [reflexivity|].
  destruct (dirname_head a t) as [E | [r E]].
  - rewrite E, isabs_cons.
    destruct (Ascii.eqb_spec a Posixpath.sep_char) as [->|]; [|reflexivity].
    apply dirname_empty_iff in E.
    pose proof (rfind_cons_sep Posixpath.sep_char t). lia.
  - now rewrite E, !isabs_cons.
Qed.

Lemma isabs_binary (w : process) :
  Posixpath.isabs (binary_of w) = Posixpath.isabs (package_location w).
Proof.
  rewrite binary_of_spelling.
  destruct (package_location w) as [|a P]; [reflexivity|].
  simpl append. now rewrite !isabs_cons.
Qed.

Lemma append_is_suffix (a c : string) : (a ++ c)%string = c -> a = EmptyString.
Proof.
  intros E. apply (f_equal String.length) in E. rewrite length_append in E.
  destruct a; [reflexivity | simpl in E; lia].
Qed.

(** The binary path is the relative [bin/ssh] exactly when the package
    location is empty. *)
Lemma binary_relative_iff (w : process) :
  binary_of w = "bin/ssh" <-> package_location w = EmptyString.
Proof.
  rewrite binary_of_spelling. split.
  - intros E. rewrite <- append_assoc in E. apply append_is_suffix in E.
    destruct (package_location w); [reflexivity | discriminate E].
  - intros ->. reflexivity.
Qed.

Lemma bin_dir_returns (w : process) :
  _bin_dir w = (Return (Posixpath.join (package_location w) "bin"), w).
Proof. reflexivity. Qed.

End DirFacts.

Import DirFacts.

(** X1. [ssh_path] and [_bin_dir] fit together: [_bin_dir] returns the
    package location, the separator where one is needed, and [bin]; this is
    never empty and never ends with a separator, so [ssh_path] is always
    that directory, one separator and [ssh], and [os.path.dirname] of what
    [ssh_path] returns is what [_bin_dir] returns. *)
Theorem ssh_path_in_bin_dir (w : process) :
  exists d,
    _bin_dir w = (Return d, w)
    /\ d = (package_location w ++ glue (package_location w) ++ "bin")%string
    /\ d <> EmptyString
    /\ Str.endswith Posixpath.sep d = false
    /\ ssh_path w = (Return (d ++ "/ssh")%string, w)
    /\ Posixpath.dirname (d ++ "/ssh") = d.
Proof.
  exists (Posixpath.join (package_location w) "bin").
  destruct (bin_dir_is_name (package_location w)) as [Hd He].
  split; [apply bin_dir_returns|]. split; [apply join_bin|].
  split; [exact Hd|]. split; [exact He|]. split.
  - rewrite ssh_path_returns, binary_of_bin_dir. reflexivity.
  - rewrite <- (dirname_binary w) at 2. now rewrite binary_of_bin_dir.
Qed.

(** X2. What [ssh_path] returns is an absolute path exactly when the
    module's [__file__] is one. *)
Theorem ssh_path_absolute_as_file (w : process) :
  exists b,
    ssh_path w = (Return b, w)
    /\ Posixpath.isabs b = Posixpath.isabs (p_file w).
Proof.
  exists (binary_of w). split; [apply ssh_path_returns|].
  rewrite isabs_binary. apply isabs_dirname.
Qed.

(** X3. [ssh_path] returns the relative path [bin/ssh] exactly when
    [__file__] contains no separator; [main] then checks and executes that
    very path, without a search along [PATH]: after the [stat] of
    [bin/ssh] comes the exec call on it, or what the print of the message
    about it left, and with the error stream taking the message exactly one
    such event. *)
Theorem ssh_path_relative_iff_bare_file (w : process) :
  (ssh_path w = (Return "bin/ssh", w)
   <-> Str.rfind Posixpath.sep_char (p_file w) = (-1)%Z)
  /\ (Str.rfind Posixpath.sep_char (p_file w) = (-1)%Z ->
      exists evs,
        p_trace (snd (main w)) = p_trace w ++ EvStat "bin/ssh" :: evs
        /\ (evs = [EvExecv "bin/ssh" ("bin/ssh" :: caller_args w)]
            \/ evs = []
            \/ exists f,
                 evs = [EvWrite f (not_found_message "bin/ssh" ++ newline)]
                 \/ exists e,
                      evs = [EvWriteError f (not_found_message "bin/ssh" ++ newline) e]))
  /\ (Str.rfind Posixpath.sep_char (p_file w) = (-1)%Z ->
      p_stderr w = Some Stderr ->
      p_write w Stderr (not_found_message "bin/ssh" ++ newline) = None ->
      exists ev, p_trace (snd (main w)) = p_trace w ++ [EvStat "bin/ssh"; ev]
                 /\ (ev = EvWrite Stderr (not_found_message "bin/ssh" ++ newline)
                     \/ ev = EvExecv "bin/ssh" ("bin/ssh" :: caller_args w))).
Proof.
  assert (Hiff : binary_of w = "bin/ssh"
                 <-> Str.rfind Posixpath.sep_char (p_file w) = (-1)%Z).
  { rewrite binary_relative_iff. apply dirname_empty_iff. }
  split; [|split].
  - rewrite ssh_path_returns. split.
    + intros E. apply Hiff. now injection E.
    + intros H. apply Hiff in H. now rewrite H.
  - intros H. apply Hiff in H. rewrite <- H. apply main_events.
  - intros H Hs Hw. apply Hiff in H. rewrite <- H in *.
    now apply main_events_printed.
Qed.

Lemma ssh_path_relative_iff_bare_file_witness :
  Str.rfind Posixpath.sep_char (p_file Scenario.bare) = (-1)%Z
  /\ ssh_path Scenario.bare = (Return "bin/ssh", Scenario.bare)
  /\ exec_attempts (p_trace (snd (main Scenario.bare))) = [("bin/ssh", ["bin/ssh"])].
Proof.
  destruct (ssh_path_relative_iff_bare_file Scenario.bare) as [[_ Hs] _].
  split; [reflexivity|]. split; [exact (Hs eq_refl) | reflexivity].
Defined.

(** X4. The program that replaces the launcher sees the launcher's own
    argument vector with only its first entry changed: the binary path
    stands where the launcher's name was, every later entry is at its
    place, and the number of entries is the same. With an empty [sys.argv]
    there is nothing to replace and the vector is the binary path alone. *)
Theorem argv_differs_at_zero_only (w : process) (i : image) :
  fst (main w) = Replaced i ->
  nth_error (img_argv i) 0 = Some (binary_of w)
  /\ (forall k, nth_error (img_argv i) (S k) = nth_error (p_argv w) (S k))
  /\ (p_argv w <> [] -> length (img_argv i) = length (p_argv w))
  /\ (p_argv w = [] -> img_argv i = [binary_of w]).
Proof.
  intros Hi.
  assert (E : img_argv i = binary_of w :: caller_args w).
  { destruct (main_cases w)
      as [(_ & x & w' & Hm & _) | [(_ & _ & Hm) | (_ & e & _ & Hm)]];
      rewrite Hm in Hi; simpl in Hi; try discriminate Hi.
    now injection Hi as <-. }
  rewrite E. unfold caller_args.
  destruct (p_argv w) as [|prog args].
  - split; [reflexivity|]. split; [|split].
    + intros k. simpl. now destruct k.
    + intros H. now elim H.
    + reflexivity.
  - split; [reflexivity|]. split; [|split].
    + reflexivity.
    + reflexivity.
    + discriminate.
Qed.

Lemma argv_differs_at_zero_only_witness :
  fst (main Scenario.present)
  = Replaced (Image "/opt/tool/bin/ssh"
                    ("/opt/tool/bin/ssh" :: Scenario.ssh_args) Scenario.user_environ)
  /\ length ("/opt/tool/bin/ssh" :: Scenario.ssh_args) = length (p_argv Scenario.present)
  /\ (fst (main Scenario.bare) = Replaced (Image "bin/ssh" ["bin/ssh"] Scenario.user_environ)).
Proof.
  split; [reflexivity|]. split; [|reflexivity].
  refine (proj1 (proj2 (proj2
    (argv_differs_at_zero_only Scenario.present
       (Image "/opt/tool/bin/ssh" ("/opt/tool/bin/ssh" :: Scenario.ssh_args)
              Scenario.user_environ) eq_refl))) _).
  discriminate.
Defined.



(** X6. [main] executes nothing but the bundled binary: every exec call
    it makes is on the path that [ssh_path] returned, after the check on
    that path passed, and there is at most one. The path always has a
    directory part, which is why [os.execvp] never looks along [PATH] for
    another [ssh]. *)
Theorem main_execs_only_binary (w : process) :
  Str.truthy (Posixpath.dirname (binary_of w)) = true
  /\ (exists new,
        exec_attempts (p_trace (snd (main w))) = exec_attempts (p_trace w) ++ new
        /\ length new <= 1
        /\ forall p a, In (p, a) new ->
             p = binary_of w /\ p_isreg w p = true
             /\ ssh_path w = (Return p, w)).
Proof.
  split.
  - rewrite dirname_binary. apply truthy_true.
    exact (proj1 (bin_dir_is_name (package_location w))).
  - destruct (p_isreg w (binary_of w)) eqn:Hreg.
    + exists [(binary_of w, binary_of w :: caller_args w)].
      rewrite (trace_present w Hreg), exec_attempts_append.
      split; [reflexivity|]. split; [simpl; lia|].
      intros p a [E | []]. injection E as <- _.
      split; [reflexivity|]. split; [exact Hreg | apply ssh_path_returns].
    + exists []. rewrite (exec_attempts_missing w Hreg), app_nil_r.
      split; [reflexivity|]. split; [simpl; lia|].
      intros p a [].
Qed.

Lemma main_execs_only_binary_witness :
  exec_attempts (p_trace (snd (main Scenario.present)))
  = [("/opt/tool/bin/ssh", "/opt/tool/bin/ssh" :: Scenario.ssh_args)]
  /\ Str.truthy (Posixpath.dirname (binary_of Scenario.present)) = true
  /\ exec_attempts (p_trace (snd (main Scenario.absent))) = [].
Proof.
  split; [reflexivity|]. split; [|reflexivity].
  exact (proj1 (main_execs_only_binary Scenario.present)).
Defined.
